(** * Semigroup, Covariant and Predicate: the typeclass derivations

    A shallow embedding of [src/typeclass/Semigroup.ts],
    [src/typeclass/Covariant.ts] and [test/data/Predicate.ts].

    Conventions of the embedding:
    - a typeclass instance (a plain record of functions) is a Rocq record;
    - a curried method [m(that)(self)] is a function of [that] then [self];
    - a finite [Iterable<A>] or [Array<A>] is a [list A];
    - a plain object used as a record is the [gmap string V] of its own
      enumerable fields, with [Object.prototype] behind it: reading a key
      it does not own gives the inherited member ([property]), and
      assigning to [__proto__] defines no field ([assignProperty]);
    - reading an array at an index out of range gives [undefined], which is
      the inhabitant of the value type ([l !!! i]);
    - a type constructor [F] (a [TypeLambda] applied with [Kind]) is a
      function [Type -> Type]. *)

From Stdlib Require Import ZArith FunctionalExtensionality.
From stdpp Require Import base list strings gmap fin_maps.

Set Implicit Arguments.

(** ** Loops *)

(** [for (const a of collection) { state = body(a)(state) }] started from
    [init]: the value of [state] when the loop ends. *)
Fixpoint for_of {A B : Type} (body : A -> B -> B) (collection : list A) (init : B) : B :=
  match collection with
  | [] => init
  | a :: rest => for_of body rest (body a init)
  end.

(** ** Plain objects *)

(** The property names of [Object.prototype]. *)
Definition objectPrototypeNames : list string :=
  [ "__proto__"; "constructor"; "hasOwnProperty"; "isPrototypeOf";
    "propertyIsEnumerable"; "toLocaleString"; "toString"; "valueOf";
    "__defineGetter__"; "__defineSetter__"; "__lookupGetter__"; "__lookupSetter__" ].

(** [inherited k] is [({})[k]], what a plain object reads at a key it does
    not own: the member [k] of [Object.prototype] for the names above,
    [undefined] for every other name. *)
Class ObjectPrototype (V : Type) : Type := inherited : string -> V.

(** [o[k]]: the own field when there is one, the inherited member
    otherwise. *)
Definition property `{ObjectPrototype V} (o : gmap string V) (k : string) : V :=
  default (inherited k) (o !! k).

(** [r[k] = v] on a plain object defines or overwrites the own field [k],
    except at [__proto__]: that assignment runs the setter of
    [Object.prototype], which defines no field (it replaces the prototype of
    [r] when [v] is an object or [null]; the own fields stay as they are). *)
Definition assignProperty {V : Type} (k : string) (v : V) (r : gmap string V)
  : gmap string V :=
  if decide (k = "__proto__") then r else <[k := v]> r.


(** ** Order *)

Module Order.

(** Modelled from the spec: the [Order<A>] interface of typeclass/Order.ts,
    which is not among the sources.  [compare(that)(self)] is one of
    [-1], [0], [1]; it is [-1] when [self] is below [that]. *)
Inductive Ordering : Type :=
| Less    (* -1 *)
| Equal   (*  0 *)
| Greater (*  1 *).

Record Order (A : Type) : Type := { compare : A -> A -> Ordering }.

Definition negate (o : Ordering) : Ordering :=
  match o with
  | Less => Greater
  | Equal => Equal
  | Greater => Less
  end.

(** A lawful comparator: swapping the operands negates the outcome
    ([compare(a)(b) == -compare(b)(a)]) and "not above" is transitive.
    Distinct values may still compare [Equal]. *)
Record Total {A : Type} (O : Order A) : Prop := {
  compare_swap : forall a b, compare O a b = negate (compare O b a);
  compare_trans : forall a b c,
    compare O b a <> Greater -> compare O c b <> Greater -> compare O c a <> Greater
}.

(** Modelled from the spec: [contramap(f)] of typeclass/Order.ts,
    [compare(that)(self) := O.compare(f(that))(f(self))]. *)
Definition contramap {A B : Type} (f : B -> A) (O : Order A) : Order B :=
  {| compare := fun that self => compare O (f that) (f self) |}.

(** Modelled from the spec: [number.Order] of test/data/number.ts, the usual
    order of numbers, here on integers. *)
Definition numberOrder : Order Z :=
  {| compare := fun that self =>
       if (self <? that)%Z then Less else if (that <? self)%Z then Greater else Equal |}.

End Order.

(** ** Semigroup *)

Module Semigroup.

Import Order.

Record Semigroup (A : Type) : Type := {
  combine : A -> A -> A;
  combineMany : list A -> A -> A
}.

Definition fromCombine {A : Type} (combine : A -> A -> A) : Semigroup A :=
  {| combine := combine;
     combineMany := fun collection self =>
       for_of (fun a out => combine a out) collection self |}.

Definition min {A : Type} (O : Order A) : Semigroup A :=
  fromCombine (fun that self =>
    match compare O that self with Less => self | _ => that end).

Definition max {A : Type} (O : Order A) : Semigroup A :=
  fromCombine (fun that self =>
    match compare O that self with Greater => self | _ => that end).

Definition constant {A : Type} (a : A) : Semigroup A :=
  {| combine := fun _ _ => a;
     combineMany := fun _ _ => a |}.

Definition reverse {A : Type} (S : Semigroup A) : Semigroup A :=
  {| combine := fun that self => combine S self that;
     combineMany := fun collection self =>
       let reversed := rev collection in
       match reversed with
       | reversed0 :: _ => combine S self (combineMany S (drop 1 reversed) reversed0)
       | [] => self
       end |}.

(** The loop of [struct]: [r] starts empty, and for each own key [k] of
    [semigroups] the loop runs
    [r[k] = semigroups[k].combine(that[k])(self[k])]. *)
Definition struct `{ObjectPrototype V} (semigroups : gmap string (Semigroup V))
  : Semigroup (gmap string V) :=
  fromCombine (fun that self =>
    map_fold (fun k Sk r =>
                assignProperty k (combine Sk (property that k) (property self k)) r)
             ∅ semigroups).

Definition tuple `{Inhabited V} (semigroups : list (Semigroup V))
  : Semigroup (list V) :=
  fromCombine (fun that self =>
    imap (fun i Si => combine Si (that !!! i) (self !!! i)) semigroups).

Definition intercalate {A : Type} (separator : A) (S : Semigroup A) : Semigroup A :=
  fromCombine (fun that => combineMany S [separator; that]).

Definition first {A : Type} : Semigroup A :=
  {| combine := fun _ => id;
     combineMany := fun _ => id |}.

Definition last {A : Type} : Semigroup A :=
  {| combine := fun second _ => second;
     combineMany := fun collection self =>
       for_of (fun a _ => a) collection self |}.

Definition imap {A B : Type} (to : A -> B) (from : B -> A) (S : Semigroup A)
  : Semigroup B :=
  {| combine := fun that self => to (combine S (from that) (from self));
     combineMany := fun collection self =>
       to (combineMany S (map from collection) (from self)) |}.

Module SemiProduct.

Definition product `{Inhabited A} (that self : Semigroup A) : Semigroup (list A) :=
  tuple [self; that].

Definition productMany `{Inhabited A} (collection : list (Semigroup A))
  (self : Semigroup A) : Semigroup (list A) :=
  tuple (self :: collection).

End SemiProduct.

Module Product.

(** [of] (a reserved word here, hence [of_]). *)
Definition of_ {A : Type} : A -> Semigroup A := constant.

Definition productAll `{Inhabited A} (collection : list (Semigroup A))
  : Semigroup (list A) :=
  tuple collection.

End Product.

End Semigroup.

(** ** Covariant *)

Module Covariant.

(** [interface Covariant<F> extends Invariant<F>]: [map] together with the
    inherited [imap]. *)
Record Covariant (F : Type -> Type) : Type := {
  map : forall A B : Type, (A -> B) -> F A -> F B;
  imap : forall A B : Type, (A -> B) -> (B -> A) -> F A -> F B
}.

Arguments map {F} _ {A B} _ _.
Arguments imap {F} _ {A B} _ _ _.

Definition mapComposition {F G : Type -> Type} (F_ : Covariant F) (G_ : Covariant G)
  {A B : Type} (f : A -> B) : F (G A) -> F (G B) :=
  map F_ (map G_ f).

(** The exported function [imap] of Covariant.ts; the record field above
    owns the name, hence [imap_]. *)
Definition imap_ {F : Type -> Type} (map : forall A B : Type, (A -> B) -> F A -> F B)
  {A B : Type} (to : A -> B) (_ : B -> A) : F A -> F B :=
  map A B to.

Definition make {F : Type -> Type} (map : forall A B : Type, (A -> B) -> F A -> F B)
  : Covariant F :=
  {| map := map;
     imap := fun A B => imap_ map (A := A) (B := B) |}.

Definition flap {F : Type -> Type} (F_ : Covariant F) {A B : Type} (a : A)
  : F (A -> B) -> F B :=
  map F_ (fun f => f a).

(** [as] (a reserved word here, hence [as_]). *)
Definition as_ {F : Type -> Type} (F_ : Covariant F) {B C : Type} (b : B) : F C -> F B :=
  map F_ (fun _ => b).

Definition asUnit {F : Type -> Type} (F_ : Covariant F) {C : Type} : F C -> F unit :=
  as_ F_ tt.


End Covariant.

(** ** Predicate *)

Module Predicate.

Definition Predicate (A : Type) : Type := A -> bool.

Definition contramap {B A : Type} (f : B -> A) (self : Predicate A) : Predicate B :=
  fun b => self (f b).

(** [of] (a reserved word here, hence [of_]). *)
Definition of_ {A : Type} (_ : A) : Predicate A := fun _ => true.

(** The loop of [productAll] from index [i] on, [predicates] being the
    predicates not yet tried: it leaves with [false] at the first
    [predicates[i](as[i]) === false]. *)
Fixpoint productAll_loop `{Inhabited A} (i : nat) (predicates : list (Predicate A))
  (as_ : list A) : bool :=
  match predicates with
  | [] => true
  | p :: rest => if p (as_ !!! i) then productAll_loop (S i) rest as_ else false
  end.

Module SemiProduct.

(** [([a, b]) => self(a) && that(b)]. *)
Definition product `{Inhabited A} (that self : Predicate A) : Predicate (list A) :=
  fun as_ => self (as_ !!! 0) && that (as_ !!! 1).

(** [([head, ...tail]) => ...]: [self] is tried on [head], then the loop of
    the collection runs on [tail]. *)
Definition productMany `{Inhabited A} (collection : list (Predicate A))
  (self : Predicate A) : Predicate (list A) :=
  fun as_ =>
    let head := as_ !!! 0 in
    let tail := drop 1 as_ in
    if self head then productAll_loop 0 collection tail else false.

End SemiProduct.

Module Product.

Definition of_ {A : Type} : A -> Predicate A := Predicate.of_.

Definition productAll `{Inhabited A} (collection : list (Predicate A))
  : Predicate (list A) :=
  fun as_ => productAll_loop 0 collection as_.

End Product.

End Predicate.

(** ** Instances used by the scenarios *)

Module Data.

Import Semigroup.

(** Modelled from the spec: [string.Semigroup] of test/data/string.ts (the
    spec's [stringSemigroup]), not among the sources: concatenation, [self]
    first, with [combineMany] its left fold. *)
Definition stringSemigroup : Semigroup string :=
  fromCombine (fun that self => self +:+ that).

(** Modelled from the spec: [number.SemigroupSum] of test/data/number.ts (the
    spec's [numberSumSemigroup]), not among the sources: addition, here on
    integers, where the addition of numbers is exact. *)
Definition numberSumSemigroup : Semigroup Z :=
  fromCombine (fun that self => (self + that)%Z).

(** The values a field of a record holds in the scenarios; [VInherited k]
    is the member [k] of [Object.prototype]. *)
Inductive value : Type :=
| VUndefined
| VNumber (n : Z)
| VString (s : string)
| VInherited (k : string).

#[global] Instance value_inhabited : Inhabited value := populate VUndefined.

#[global] Instance value_prototype : ObjectPrototype value :=
  fun k => if bool_decide (k ∈ objectPrototypeNames) then VInherited k else VUndefined.

Definition unString (v : value) : string :=
  match v with VString s => s | _ => "" end.

Definition unNumber (v : value) : Z :=
  match v with VNumber n => n | _ => 0%Z end.

(** The two instances above as instances on [value], for the fields of a
    record. *)
Definition stringField : Semigroup value := imap VString unString stringSemigroup.

Definition numberSumField : Semigroup value := imap VNumber unNumber numberSumSemigroup.

(** An order that looks at the first component only: two pairs with the same
    number compare [Equal] whatever their labels. *)
Definition byFirst : Order.Order (Z * string) := Order.contramap fst Order.numberOrder.

(** Subtraction, [self - that]: a [combine] that is not associative. *)
Definition subtraction : Semigroup Z :=
  fromCombine (fun that self => (self - that)%Z).

(** A hand-written instance: [combine] keeps [self], which is associative;
    [combineMany] subtracts the collection from [self], which is not the
    left fold of [combine]. *)
Definition keepSelfSubtractMany : Semigroup Z :=
  {| combine := fun _ self => self;
     combineMany := fun collection self =>
       for_of (fun a out => (out - a)%Z) collection self |}.

(** The list and option constructors as [Covariant] instances. *)
Definition listCovariant : Covariant.Covariant list := Covariant.make (@List.map).

Definition optionCovariant : Covariant.Covariant option := Covariant.make (@option_map).

End Data.

(** ** The laws, as properties of instances *)

Module Law.

Import Semigroup.

(** [xs.reduce(combine, s)]: the left fold of [combine] across [xs] starting
    from [s], each element being the [that] operand. *)
Definition leftFold {A : Type} (S : Semigroup A) (xs : list A) (s : A) : A :=
  fold_left (fun out a => combine S a out) xs s.

Definition associative {A : Type} (S : Semigroup A) : Prop :=
  forall a b c : A, combine S (combine S a b) c = combine S a (combine S b c).

Definition folds {A : Type} (S : Semigroup A) : Prop :=
  forall (xs : list A) (s : A), combineMany S xs s = leftFold S xs s.

(** The invariant of a [Semigroup<A>]: [combine] is associative and
    [combineMany] is its left fold. *)
Definition Lawful {A : Type} (S : Semigroup A) : Prop :=
  associative S /\ folds S.

(** The functor laws of a [map], pointwise. *)
Definition identityLaw {F : Type -> Type}
  (fmap : forall A B : Type, (A -> B) -> F A -> F B) : Prop :=
  forall (A : Type) (x : F A), fmap A A (fun a => a) x = x.

Definition compositionLaw {F : Type -> Type}
  (fmap : forall A B : Type, (A -> B) -> F A -> F B) : Prop :=
  forall (A B C : Type) (f : A -> B) (g : B -> C) (x : F A),
    fmap A C (fun a => g (f a)) x = fmap B C g (fmap A B f x).

(** [xs] with [separator] put before each of its elements. *)
Definition withSeparator {A : Type} (separator : A) (xs : list A) : list A :=
  flat_map (fun x => [separator; x]) xs.

End Law.

(** * Properties of Semigroup *)

Module SemigroupProps.

Import Order Semigroup Law.

Lemma for_of_fold_left {A B : Type} (body : A -> B -> B) (xs : list A) (s : B) :
  for_of body xs s = fold_left (fun out a => body a out) xs s.
Proof. revert s. induction xs as [|x xs IH]; intros s; simpl; [reflexivity | apply IH]. Qed.

Lemma fromCombine_folds {A : Type} (f : A -> A -> A) : folds (fromCombine f).
Proof. intros xs s. apply for_of_fold_left. Qed.

Lemma leftFold_snoc {A : Type} (S : Semigroup A) (xs : list A) (x s : A) :
  leftFold S (xs ++ [x]) s = combine S x (leftFold S xs s).
Proof. unfold leftFold. rewrite fold_left_app. reflexivity. Qed.

Lemma for_of_last {A : Type} (xs : list A) (s : A) :
  for_of (fun a _ => a) xs s = List.last xs s.
Proof.
  revert s. induction xs as [|x xs IH]; intros s; [reflexivity|].
  destruct xs as [|y ys]; [reflexivity | exact (IH s)].
Qed.

(** C5. [last()]: [combine(that)(self)] is [that]; [combineMany(xs)(s)] is
    the final element of [xs] when [xs] is not empty, and [s] when it is. *)
Theorem last_combineMany_final {A : Type} :
  (forall that self : A, combine last that self = that) /\
  (forall (xs : list A) (x s : A), combineMany last (xs ++ [x]) s = x) /\
  (forall s : A, combineMany last [] s = s) /\
  (forall (xs : list A) (s : A), combineMany last xs s = List.last xs s).
Proof.
  repeat split; try reflexivity.
  - intros xs x s. simpl. rewrite for_of_last. apply last_last.
  - intros xs s. apply for_of_last.
Qed.

(** ** min and max *)

(** C2, as the code has it.  On a tie ([compare(that)(self) == 0]) both
    [min(O)] and [max(O)] return [that], the later operand; on [-1] ([self]
    below [that]) [min] returns [self] and [max] returns [that]; on [1]
    [min] returns [that] and [max] returns [self]. *)
Theorem min_max_outcomes {A : Type} (O : Order A) (that self : A) :
  (compare O that self = Equal ->
     combine (min O) that self = that /\ combine (max O) that self = that) /\
  (compare O that self = Less ->
     combine (min O) that self = self /\ combine (max O) that self = that) /\
  (compare O that self = Greater ->
     combine (min O) that self = that /\ combine (max O) that self = self).
Proof.
  repeat split; simpl; rewrite H; reflexivity.
Qed.

Lemma min_max_outcomes_witness :
  (combine (min Data.byFirst) (1%Z, "second") (1%Z, "first") = (1%Z, "second") /\
   combine (max Data.byFirst) (1%Z, "second") (1%Z, "first") = (1%Z, "second")) /\
  (combine (min numberOrder) 2%Z 1%Z = 1%Z /\ combine (max numberOrder) 2%Z 1%Z = 2%Z) /\
  (combine (min numberOrder) 1%Z 2%Z = 1%Z /\ combine (max numberOrder) 1%Z 2%Z = 2%Z).
Proof.
  split; [|split].
  - apply (min_max_outcomes Data.byFirst (1%Z, "second") (1%Z, "first")). reflexivity.
  - apply (min_max_outcomes numberOrder 2%Z 1%Z). reflexivity.
  - apply (min_max_outcomes numberOrder 1%Z 2%Z). reflexivity.
Defined.

(** C2 as the spec words it fails for [min]: on a tie between two distinct
    operands [min(O).combine(that)(self)] is [that], not [self]. *)
Lemma min_tie_is_not_self :
  compare Data.byFirst (1%Z, "second") (1%Z, "first") = Equal /\
  combine (min Data.byFirst) (1%Z, "second") (1%Z, "first") = (1%Z, "second") /\
  combine (min Data.byFirst) (1%Z, "second") (1%Z, "first") <> (1%Z, "first").
Proof. repeat split. discriminate. Qed.

(** ** reverse *)

Lemma reverse_combineMany_snoc {A : Type} (S : Semigroup A) (xs : list A) (x s : A) :
  combineMany (reverse S) (xs ++ [x]) s = combine S s (combineMany S (rev xs) x).
Proof. simpl. rewrite rev_app_distr. reflexivity. Qed.

Lemma reverse_fold_shift {A : Type} (S : Semigroup A) :
  associative S ->
  forall (ys : list A) (y s : A),
    combine S s (leftFold S (rev ys) y) = combine S (leftFold (reverse S) ys s) y.
Proof.
  intros Hassoc ys. induction ys as [|z zs IH]; intros y s; [reflexivity|].
  simpl rev. rewrite leftFold_snoc.
  change (leftFold (reverse S) (z :: zs) s) with (leftFold (reverse S) zs (combine S s z)).
  rewrite <- IH. symmetry. apply Hassoc.
Qed.

Lemma reverse_folds {A : Type} (S : Semigroup A) : Lawful S -> folds (reverse S).
Proof.
  intros [Hassoc Hfolds] xs s.
  destruct xs as [|x xs _] using rev_ind; [reflexivity|].
  rewrite reverse_combineMany_snoc, Hfolds, leftFold_snoc.
  apply reverse_fold_shift, Hassoc.
Qed.

(** C4. [reverse(S).combine(that)(self)] is [S.combine(self)(that)]; when
    [S.combine] is associative and [S.combineMany] is its left fold,
    [reverse(S).combineMany(xs)(s)] is the left fold of the flipped
    [combine] across [xs] from [s]; and
    [reverse(stringSemigroup).combineMany(["b","c","d"])("a")] is ["dcba"]. *)
Theorem reverse_flips :
  (forall (A : Type) (S : Semigroup A) (that self : A),
     combine (reverse S) that self = combine S self that) /\
  (forall (A : Type) (S : Semigroup A), Lawful S ->
     forall (xs : list A) (s : A),
       combineMany (reverse S) xs s = fold_left (fun out a => combine S out a) xs s) /\
  combineMany (reverse Data.stringSemigroup) ["b"; "c"; "d"] "a" = "dcba".
Proof.
  split; [reflexivity | split; [|reflexivity]].
  intros A S HS xs s. apply (reverse_folds HS).
Qed.

Lemma string_append_assoc (a b c : string) : (a +:+ b) +:+ c = a +:+ (b +:+ c).
Proof.
  induction a as [|ch a IH]; [reflexivity|].
  change (String ch ((a +:+ b) +:+ c) = String ch (a +:+ (b +:+ c))).
  f_equal. exact IH.
Qed.

Lemma stringSemigroup_lawful : Lawful Data.stringSemigroup.
Proof.
  split; [|apply fromCombine_folds].
  intros a b c. simpl. symmetry. apply string_append_assoc.
Qed.

Lemma reverse_flips_witness :
  combineMany (reverse Data.stringSemigroup) ["x"; "y"] "s" =
  fold_left (fun out a => combine Data.stringSemigroup out a) ["x"; "y"] "s".
Proof.
  apply (proj1 (proj2 reverse_flips) string Data.stringSemigroup stringSemigroup_lawful).
Defined.

(** ** struct and tuple *)

Lemma struct_combine_lookup `{ObjectPrototype V} (semigroups : gmap string (Semigroup V))
    (that self : gmap string V) (k : string) :
  combine (struct semigroups) that self !! k =
  if decide (k = "__proto__") then None
  else (fun Sk => combine Sk (property that k) (property self k)) <$> semigroups !! k.
Proof.
  simpl.
  apply (map_fold_weak_ind (fun (r : gmap string V) (m : gmap string (Semigroup V)) =>
    r !! k =
    if decide (k = "__proto__") then None
    else (fun Sk => combine Sk (property that k) (property self k)) <$> m !! k)).
  - rewrite !lookup_empty. destruct (decide (k = "__proto__")); reflexivity.
  - intros i Si m r _ IH. unfold assignProperty.
    destruct (decide (i = "__proto__")) as [->|Hi].
    + rewrite IH. destruct (decide (k = "__proto__")) as [|Hk]; [reflexivity|].
      rewrite lookup_insert_ne by congruence. reflexivity.
    + destruct (decide (i = k)) as [->|Hne].
      * rewrite !lookup_insert_eq. destruct (decide (k = "__proto__")); [contradiction|].
        reflexivity.
      * rewrite !lookup_insert_ne by assumption. exact IH.
Qed.

Lemma struct_combine_property `{ObjectPrototype V} (semigroups : gmap string (Semigroup V))
    (that self : gmap string V) (k : string) (Sk : Semigroup V) :
  semigroups !! k = Some Sk -> k <> "__proto__" ->
  property (combine (struct semigroups) that self) k
  = combine Sk (property that k) (property self k).
Proof.
  intros Hk Hproto. unfold property at 1. rewrite struct_combine_lookup, Hk.
  destruct (decide (k = "__proto__")); [contradiction | reflexivity].
Qed.

Lemma tuple_combine_lookup `{Inhabited V} (semigroups : list (Semigroup V))
    (that self : list V) (i : nat) :
  combine (tuple semigroups) that self !! i =
  (fun Si => combine Si (that !!! i) (self !!! i)) <$> semigroups !! i.
Proof. simpl. apply list_lookup_imap. Qed.

Lemma tuple_combine_lookup_total `{Inhabited V} (semigroups : list (Semigroup V))
    (that self : list V) (i : nat) (Si : Semigroup V) :
  semigroups !! i = Some Si ->
  combine (tuple semigroups) that self !!! i = combine Si (that !!! i) (self !!! i).
Proof.
  intros Hi. apply list_lookup_total_correct. rewrite tuple_combine_lookup, Hi. reflexivity.
Qed.

Lemma struct_associative `{ObjectPrototype V} (semigroups : gmap string (Semigroup V)) :
  (forall k Sk, semigroups !! k = Some Sk -> associative Sk) ->
  associative (struct semigroups).
Proof.
  intros Hall a b c. apply map_eq. intros k.
  rewrite !struct_combine_lookup.
  destruct (decide (k = "__proto__")) as [|Hproto]; [reflexivity|].
  destruct (semigroups !! k) as [Sk|] eqn:Hk; [|reflexivity].
  change (Some (combine Sk (property (combine (struct semigroups) a b) k) (property c k)) =
          Some (combine Sk (property a k) (property (combine (struct semigroups) b c) k))).
  rewrite !(fun t s => @struct_combine_property V _ semigroups t s k Sk Hk Hproto).
  f_equal. apply (Hall k Sk Hk).
Qed.

Lemma tuple_associative `{Inhabited V} (semigroups : list (Semigroup V)) :
  (forall i Si, semigroups !! i = Some Si -> associative Si) ->
  associative (tuple semigroups).
Proof.
  intros Hall a b c. apply list_eq. intros i.
  rewrite !tuple_combine_lookup.
  destruct (semigroups !! i) as [Si|] eqn:Hi; [|reflexivity].
  change (Some (combine Si (combine (tuple semigroups) a b !!! i) (c !!! i)) =
          Some (combine Si (a !!! i) (combine (tuple semigroups) b c !!! i))).
  rewrite !(fun t s => @tuple_combine_lookup_total V _ semigroups t s i Si Hi).
  f_equal.
  apply (Hall i Si Hi).
Qed.

(** C9, where the code departs from it.  With [__proto__] an own key of
    [semigroups], of [that] and of [self], the loop computes
    [semigroups[k].combine(that[k])(self[k])], here ["ab"], and assigns it to
    [r["__proto__"]], which defines no field: the result is [{}], with no
    value at that key.  The scenario
    [struct({name, age}).combine({name:"b",age:20})({name:"a",age:10})] is
    [{name:"ab", age:30}]. *)
Theorem struct_combine_proto_key :
  combine Data.stringField (Data.VString "b") (Data.VString "a") = Data.VString "ab" /\
  combine (struct {[ "__proto__" := Data.stringField ]})
          {[ "__proto__" := Data.VString "b" ]}
          {[ "__proto__" := Data.VString "a" ]}
  = ∅ /\
  combine (struct {[ "name" := Data.stringField; "age" := Data.numberSumField ]})
          {[ "name" := Data.VString "b"; "age" := Data.VNumber 20 ]}
          {[ "name" := Data.VString "a"; "age" := Data.VNumber 10 ]}
  = {[ "name" := Data.VString "ab"; "age" := Data.VNumber 30 ]}.
Proof. repeat apply conj; vm_compute; reflexivity. Qed.

(** ** Associativity of the constructed instances *)

Section TotalOrder.

Context {A : Type} (O : Order A) (HO : Total O).

Lemma compare_Less_Greater (a b : A) : compare O a b = Less <-> compare O b a = Greater.
Proof.
  rewrite (compare_swap HO a b). destruct (compare O b a); simpl; split; congruence.
Qed.

Lemma not_Greater_trans (a b c : A) :
  compare O a b <> Greater -> compare O b c <> Greater -> compare O a c <> Greater.
Proof. intros Hab Hbc. exact (compare_trans HO c b a Hbc Hab). Qed.

Lemma not_Less_trans (a b c : A) :
  compare O a b <> Less -> compare O b c <> Less -> compare O a c <> Less.
Proof.
  rewrite !compare_Less_Greater. intros Hab Hbc. exact (compare_trans HO a b c Hab Hbc).
Qed.

Lemma Less_trans (a b c : A) :
  compare O a b = Less -> compare O b c = Less -> compare O a c = Less.
Proof.
  intros Hab Hbc. destruct (compare O a c) eqn:Hac; [reflexivity | |]; exfalso;
    (apply (@not_Less_trans b a c); [| congruence | exact Hbc]);
    rewrite compare_Less_Greater; congruence.
Qed.

Lemma Greater_trans (a b c : A) :
  compare O a b = Greater -> compare O b c = Greater -> compare O a c = Greater.
Proof.
  rewrite <- !compare_Less_Greater. intros Hab Hbc. exact (@Less_trans c b a Hbc Hab).
Qed.

Lemma min_associative : associative (min O).
Proof.
  intros a b c. simpl.
  destruct (compare O a b) eqn:Hab; destruct (compare O b c) eqn:Hbc;
    rewrite ?Hab, ?Hbc; try reflexivity;
    first
      [ now rewrite (@Less_trans a b c Hab Hbc)
      | destruct (compare O a c) eqn:Hac; try reflexivity;
        exfalso; apply (@not_Less_trans a b c); congruence ].
Qed.

Lemma max_associative : associative (max O).
Proof.
  intros a b c. simpl.
  destruct (compare O a b) eqn:Hab; destruct (compare O b c) eqn:Hbc;
    rewrite ?Hab, ?Hbc; try reflexivity;
    first
      [ now rewrite (@Greater_trans a b c Hab Hbc)
      | destruct (compare O a c) eqn:Hac; try reflexivity;
        exfalso; apply (@not_Greater_trans a b c); congruence ].
Qed.

End TotalOrder.

Lemma reverse_associative {A : Type} (S : Semigroup A) :
  associative S -> associative (reverse S).
Proof. intros HS a b c. simpl. symmetry. apply HS. Qed.

Lemma intercalate_combine {A : Type} (separator : A) (S : Semigroup A) :
  folds S ->
  forall that self : A,
    combine (intercalate separator S) that self = combine S that (combine S separator self).
Proof. intros HS that self. simpl. rewrite HS. reflexivity. Qed.

Lemma intercalate_associative {A : Type} (separator : A) (S : Semigroup A) :
  Lawful S -> associative (intercalate separator S).
Proof.
  intros [Hassoc Hfolds] a b c. rewrite !(intercalate_combine separator Hfolds).
  rewrite !Hassoc. reflexivity.
Qed.

Lemma imap_associative {A B : Type} (to : A -> B) (from : B -> A) (S : Semigroup A) :
  associative S -> (forall a, from (to a) = a) -> associative (imap to from S).
Proof. intros HS Hft a b c. simpl. rewrite !Hft, HS. reflexivity. Qed.

Lemma imap_folds {A B : Type} (to : A -> B) (from : B -> A) (S : Semigroup A) :
  folds S -> (forall a, from (to a) = a) -> (forall b, to (from b) = b) ->
  folds (imap to from S).
Proof.
  intros HS Hft Htf xs s. simpl. rewrite HS. revert s.
  induction xs as [|x xs IH]; intros s; simpl.
  - apply Htf.
  - rewrite <- IH, Hft. reflexivity.
Qed.

Lemma numberOrder_total : Total numberOrder.
Proof.
  split.
  - intros a b. simpl.
    destruct (Z.ltb_spec b a), (Z.ltb_spec a b); simpl; try reflexivity; lia.
  - intros a b c. simpl.
    destruct (Z.ltb_spec a b), (Z.ltb_spec b a), (Z.ltb_spec b c), (Z.ltb_spec c b),
      (Z.ltb_spec a c), (Z.ltb_spec c a); try congruence; lia.
Qed.

Lemma contramap_total {A B : Type} (f : B -> A) (O : Order A) :
  Total O -> Total (contramap f O).
Proof.
  intros [Hswap Htrans]. split; simpl.
  - intros a b. apply Hswap.
  - intros a b c. apply Htrans.
Qed.

Lemma numberSumSemigroup_lawful : Lawful Data.numberSumSemigroup.
Proof.
  split; [|apply fromCombine_folds]. intros a b c. simpl. lia.
Qed.

Lemma constant_associative {A : Type} (a : A) : associative (constant a).
Proof. intros x y z. reflexivity. Qed.

Lemma first_associative {A : Type} : associative (@first A).
Proof. intros x y z. reflexivity. Qed.

Lemma last_associative {A : Type} : associative (@last A).
Proof. intros x y z. reflexivity. Qed.

Lemma stringField_associative : associative Data.stringField.
Proof.
  apply imap_associative; [apply stringSemigroup_lawful | reflexivity].
Qed.

Lemma numberSumField_associative : associative Data.numberSumField.
Proof.
  apply imap_associative; [apply numberSumSemigroup_lawful | reflexivity].
Qed.

(** C3, as the code has it.  [combine] of an instance built by the
    constructors from lawful inputs is associative: [min] and [max] of a
    total order; [constant], [first] and [last] with no hypothesis;
    [reverse], [struct] and [tuple] of instances with an associative
    [combine]; [intercalate] of an instance whose [combine] is associative
    and whose [combineMany] is the left fold of it, since [intercalate]
    calls [combineMany]; [imap(to, from)] of an instance with an associative
    [combine] when [from] undoes [to]. *)
Theorem constructed_combine_associative :
  (forall (A : Type) (O : Order A), Total O -> associative (min O) /\ associative (max O)) /\
  (forall (A : Type) (a : A), associative (constant a)) /\
  (forall A : Type, associative (@first A) /\ associative (@last A)) /\
  (forall (A : Type) (S : Semigroup A), associative S -> associative (reverse S)) /\
  (forall (V : Type) (prototype : ObjectPrototype V)
          (semigroups : gmap string (Semigroup V)),
     (forall k Sk, semigroups !! k = Some Sk -> associative Sk) ->
     associative (struct semigroups)) /\
  (forall (V : Type) (undefined : Inhabited V) (semigroups : list (Semigroup V)),
     (forall i Si, semigroups !! i = Some Si -> associative Si) ->
     associative (tuple semigroups)) /\
  (forall (A : Type) (separator : A) (S : Semigroup A),
     Lawful S -> associative (intercalate separator S)) /\
  (forall (A B : Type) (to : A -> B) (from : B -> A) (S : Semigroup A),
     associative S -> (forall a, from (to a) = a) -> associative (imap to from S)).
Proof.
  repeat apply conj.
  - intros A O HO. split; [apply min_associative | apply max_associative]; exact HO.
  - intros A a. apply constant_associative.
  - intros A. split; [apply first_associative | apply last_associative].
  - intros A S. apply reverse_associative.
  - intros V prototype semigroups. apply struct_associative.
  - intros V undefined semigroups. apply tuple_associative.
  - intros A separator S. apply intercalate_associative.
  - intros A B to from S. apply imap_associative.
Qed.

Lemma constructed_combine_associative_witness :
  associative (min numberOrder) /\
  associative (max Data.byFirst) /\
  associative (reverse Data.stringSemigroup) /\
  associative (struct {[ "name" := Data.stringField ]}) /\
  associative (tuple [Data.stringField; Data.numberSumField]) /\
  associative (intercalate "|" Data.stringSemigroup) /\
  associative (imap Data.VString Data.unString Data.stringSemigroup).
Proof.
  destruct constructed_combine_associative
    as (Hminmax & _ & _ & Hreverse & Hstruct & Htuple & Hintercalate & Himap).
  repeat apply conj.
  - apply (Hminmax Z numberOrder), numberOrder_total.
  - apply (Hminmax _ Data.byFirst), contramap_total, numberOrder_total.
  - apply Hreverse, stringSemigroup_lawful.
  - apply Hstruct. intros k Sk Hk.
    apply lookup_singleton_Some in Hk as [_ <-]. apply stringField_associative.
  - apply Htuple. intros [|[|i]] Si Hi; simpl in Hi; try discriminate;
      injection Hi as <-; [apply stringField_associative | apply numberSumField_associative].
  - apply Hintercalate, stringSemigroup_lawful.
  - apply Himap; [apply stringSemigroup_lawful | reflexivity].
Defined.

(** C3 as the spec words it fails.  [keepSelfSubtractMany] has an
    associative [combine], yet [intercalate(0)] of it is not associative:
    it calls [combineMany], and the two groupings of [1], [0], [0] give [1]
    and [-1].  And [imap] with the identity pair, an isomorphism, of
    subtraction is subtraction, with the same two values. *)
Lemma associative_combine_is_not_enough :
  associative Data.keepSelfSubtractMany /\
  combine (intercalate 0%Z Data.keepSelfSubtractMany)
    (combine (intercalate 0%Z Data.keepSelfSubtractMany) 1%Z 0%Z) 0%Z
  <> combine (intercalate 0%Z Data.keepSelfSubtractMany) 1%Z
       (combine (intercalate 0%Z Data.keepSelfSubtractMany) 0%Z 0%Z) /\
  combine (imap (fun n : Z => n) (fun n : Z => n) Data.subtraction)
    (combine (imap (fun n : Z => n) (fun n : Z => n) Data.subtraction) 1%Z 0%Z) 0%Z
  <> combine (imap (fun n : Z => n) (fun n : Z => n) Data.subtraction) 1%Z
       (combine (imap (fun n : Z => n) (fun n : Z => n) Data.subtraction) 0%Z 0%Z).
Proof.
  split; [intros a b c; reflexivity|].
  split; vm_compute; discriminate.
Qed.

(** ** combineMany against the left fold *)

Lemma first_folds {A : Type} : folds (@first A).
Proof.
  intros xs s. unfold leftFold. simpl.
  induction xs as [|x xs IH]; [reflexivity | exact IH].
Qed.

Lemma last_folds {A : Type} : folds (@last A).
Proof. intros xs s. apply for_of_fold_left. Qed.

Lemma constant_leftFold {A : Type} (a : A) (xs : list A) (s : A) :
  xs <> [] -> leftFold (constant a) xs s = a.
Proof.
  intros Hxs. destruct xs as [|x xs]; [congruence|].
  unfold leftFold. simpl. clear Hxs x s.
  induction xs as [|x xs IH]; [reflexivity | exact IH].
Qed.

(** C1, as the code has it.  For the instances built by [fromCombine],
    [min], [max], [struct], [tuple], [intercalate], [first] and [last],
    [combineMany(xs)(s)] is the left fold of [combine] across [xs] from [s],
    for every [xs] and [s].  So it is for [reverse(S)] when [S] is lawful,
    and for [imap(to, from)(S)] when [S.combineMany] is the left fold of
    [S.combine] and [to] and [from] undo each other.  [constant(a)] returns
    [a] for every [xs] and [s], which is the left fold when [xs] is not
    empty.  Where [combineMany] is the left fold, [combineMany([])(s)] is
    [s]. *)
Theorem combineMany_is_left_fold :
  (forall (A : Type) (f : A -> A -> A), folds (fromCombine f)) /\
  (forall (A : Type) (O : Order A), folds (min O) /\ folds (max O)) /\
  (forall (V : Type) (prototype : ObjectPrototype V)
          (semigroups : gmap string (Semigroup V)),
     folds (struct semigroups)) /\
  (forall (V : Type) (undefined : Inhabited V) (semigroups : list (Semigroup V)),
     folds (tuple semigroups)) /\
  (forall (A : Type) (separator : A) (S : Semigroup A), folds (intercalate separator S)) /\
  (forall A : Type, folds (@first A) /\ folds (@last A)) /\
  (forall (A : Type) (S : Semigroup A), Lawful S -> folds (reverse S)) /\
  (forall (A B : Type) (to : A -> B) (from : B -> A) (S : Semigroup A),
     folds S -> (forall a, from (to a) = a) -> (forall b, to (from b) = b) ->
     folds (imap to from S)) /\
  (forall (A : Type) (a : A) (xs : list A) (s : A),
     combineMany (constant a) xs s = a /\
     (xs <> [] -> leftFold (constant a) xs s = a)) /\
  (forall (A : Type) (S : Semigroup A), folds S -> forall s : A, combineMany S [] s = s).
Proof.
  repeat apply conj.
  - intros A f. apply fromCombine_folds.
  - intros A O. split; apply fromCombine_folds.
  - intros V prototype semigroups. apply fromCombine_folds.
  - intros V undefined semigroups. apply fromCombine_folds.
  - intros A separator S. apply fromCombine_folds.
  - intros A. split; [apply first_folds | apply last_folds].
  - intros A S. apply reverse_folds.
  - intros A B to from S. apply imap_folds.
  - intros A a xs s. split; [reflexivity | apply constant_leftFold].
  - intros A S HS s. rewrite HS. reflexivity.
Qed.

Lemma combineMany_is_left_fold_witness :
  folds (reverse Data.stringSemigroup) /\
  folds (imap Z.succ Z.pred Data.numberSumSemigroup) /\
  leftFold (constant "-") ["b"] "a" = "-" /\
  combineMany (min numberOrder) [] 1%Z = 1%Z.
Proof.
  destruct combineMany_is_left_fold
    as (HfromCombine & Hminmax & _ & _ & _ & _ & Hreverse & Himap & Hconstant & Hempty).
  repeat apply conj.
  - apply Hreverse, stringSemigroup_lawful.
  - apply Himap; [apply numberSumSemigroup_lawful | intros a; simpl; lia ..].
  - apply (Hconstant string "-" ["b"] "a"). discriminate.
  - apply Hempty, Hminmax.
Defined.

(** C1 as the spec words it fails.  [constant("-").combineMany([])("a")] is
    ["-"] while the left fold of no element from ["a"] is ["a"].  With inputs
    that are not lawful: [reverse] of subtraction over [[0, 0]] from [1]
    gives [-1], the left fold [1]; [imap] with a pair that is not inverse
    gives [1] at [combineMany([])(0)], the left fold [0]. *)
Lemma combineMany_not_left_fold :
  combineMany (constant "-") [] "a" <> leftFold (constant "-") [] "a" /\
  combineMany (reverse Data.subtraction) [0%Z; 0%Z] 1%Z
    <> leftFold (reverse Data.subtraction) [0%Z; 0%Z] 1%Z /\
  combineMany (imap Z.succ (fun n : Z => n) Data.numberSumSemigroup) [] 0%Z
    <> leftFold (imap Z.succ (fun n : Z => n) Data.numberSumSemigroup) [] 0%Z.
Proof. repeat split; vm_compute; discriminate. Qed.

End SemigroupProps.

(** * Properties of Covariant *)

Module CovariantProps.

Import Covariant Law.

(** C6. If [F.map] and [G.map] each satisfy the identity law and the
    composition law, [mapComposition(F, G)], that is [f => F.map(G.map(f))],
    satisfies both: mapping the identity leaves [x] as it is, and mapping
    [g ∘ f] is mapping [f] and then [g]. *)
Theorem mapComposition_laws {F G : Type -> Type} (F_ : Covariant F) (G_ : Covariant G) :
  identityLaw (@map F F_) -> compositionLaw (@map F F_) ->
  identityLaw (@map G G_) -> compositionLaw (@map G G_) ->
  (forall (A : Type) (x : F (G A)), mapComposition F_ G_ (fun a : A => a) x = x) /\
  (forall (A B C : Type) (f : A -> B) (g : B -> C) (x : F (G A)),
     mapComposition F_ G_ (fun a => g (f a)) x
     = mapComposition F_ G_ g (mapComposition F_ G_ f x)).
Proof.
  intros HFid HFcomp HGid HGcomp. unfold mapComposition. split.
  - intros A x.
    replace (map G_ (fun a : A => a)) with (fun y : G A => y).
    + apply HFid.
    + extensionality y. symmetry. apply HGid.
  - intros A B C f g x.
    replace (map G_ (fun a => g (f a))) with (fun y : G A => map G_ g (map G_ f y)).
    + apply HFcomp.
    + extensionality y. symmetry. apply HGcomp.
Qed.

Lemma optionCovariant_identity : identityLaw (@map option Data.optionCovariant).
Proof. intros A [x|]; reflexivity. Qed.

Lemma optionCovariant_composition : compositionLaw (@map option Data.optionCovariant).
Proof. intros A B C f g [x|]; reflexivity. Qed.

Lemma listCovariant_identity : identityLaw (@map list Data.listCovariant).
Proof. intros A x. simpl. apply List.map_id. Qed.

Lemma listCovariant_composition : compositionLaw (@map list Data.listCovariant).
Proof. intros A B C f g x. simpl. symmetry. apply List.map_map. Qed.

Lemma mapComposition_laws_witness :
  mapComposition Data.optionCovariant Data.listCovariant (fun n : nat => n) (Some [1; 2])
  = Some [1; 2] /\
  mapComposition Data.optionCovariant Data.listCovariant
    (fun n : nat => Nat.even (n + 1)) (Some [1; 2])
  = mapComposition Data.optionCovariant Data.listCovariant Nat.even
      (mapComposition Data.optionCovariant Data.listCovariant (fun n => n + 1) (Some [1; 2])).
Proof.
  destruct (mapComposition_laws Data.optionCovariant Data.listCovariant
              optionCovariant_identity optionCovariant_composition
              listCovariant_identity listCovariant_composition) as [Hid Hcomp].
  split.
  - apply Hid.
  - apply (Hcomp nat nat bool (fun n => n + 1) Nat.even).
Defined.

(** C7. [make(map)] derives an [imap] that does not look at its second
    argument: [make(map).imap(to, from1)(x)], [make(map).imap(to, from2)(x)]
    and [map(to)(x)] are the same value. *)
Theorem make_imap_discards_from {F : Type -> Type}
    (map_ : forall A B : Type, (A -> B) -> F A -> F B)
    {A B : Type} (to : A -> B) (from1 from2 : B -> A) (x : F A) :
  imap (make map_) to from1 x = imap (make map_) to from2 x /\
  imap (make map_) to from2 x = map_ A B to x.
Proof. split; reflexivity. Qed.

End CovariantProps.

(** * Properties of Predicate and of the Product instances *)

Module ProductProps.

Import Semigroup.

Lemma productAll_nil_combineMany `{Inhabited A} (xs : list (list A)) :
  combineMany (Semigroup.Product.productAll []) xs [] = [].
Proof. simpl. induction xs as [|x xs IH]; [reflexivity | exact IH]. Qed.

(** C10. [Predicate.of(a)] is the predicate that is always true: [of(a)(x)]
    is [true] for every [a] and [x], so it does not depend on [a]. *)
Theorem of_always_true {A : Type} (a b x : A) :
  Predicate.of_ a x = true /\ Predicate.of_ a x = Predicate.of_ b x.
Proof. split; reflexivity. Qed.

(** C8. [productAll] of no instance is the neutral instance.  For
    [Semigroup]: [productAll([])] is a semigroup over the empty tuple;
    its [combine] returns [[]], and its [combineMany] returns [[]] from the
    seed [[]], the one value of the empty tuple (and from any seed when the
    collection is not empty), as [of([])], that is [constant([])], does.
    For [Predicate]: [productAll([])] is true of every input, as [of(a)]
    is. *)
Theorem productAll_empty_is_neutral :
  (forall (A : Type) (undefined : Inhabited A) (that self : list A),
     combine (Semigroup.Product.productAll []) that self = []) /\
  (forall (A : Type) (undefined : Inhabited A) (xs : list (list A)),
     combineMany (Semigroup.Product.productAll []) xs [] = []) /\
  (forall (A : Type) (undefined : Inhabited A) (x : list A) (xs : list (list A))
          (self : list A),
     combineMany (Semigroup.Product.productAll []) (x :: xs) self = []) /\
  (forall (A : Type) (that self : list A) (xs : list (list A)),
     combine (Semigroup.Product.of_ []) that self = [] /\
     combineMany (Semigroup.Product.of_ []) xs self = []) /\
  (forall (A : Type) (undefined : Inhabited A) (as_ : list A),
     Predicate.Product.productAll [] as_ = true) /\
  (forall (A : Type) (a x : A), Predicate.Product.of_ a x = true).
Proof.
  repeat apply conj.
  - intros A undefined that self. reflexivity.
  - intros A undefined xs. apply productAll_nil_combineMany.
  - intros A undefined x xs self. apply (productAll_nil_combineMany xs).
  - intros A that self xs. split; reflexivity.
  - intros A undefined as_. reflexivity.
  - intros A a x. reflexivity.
Qed.

End ProductProps.

(** * The scenarios of the test suite, evaluated on the embedding *)

Module Scenarios.

Import Order Semigroup Data.

Example reverse_combine : combine (reverse stringSemigroup) "b" "a" = "ba".
Proof. reflexivity. Qed.

Example reverse_combineMany_empty : combineMany (reverse stringSemigroup) [] "a" = "a".
Proof. reflexivity. Qed.

Example reverse_combineMany_one : combineMany (reverse stringSemigroup) ["b"] "a" = "ba".
Proof. reflexivity. Qed.

Example constant_combine : combine (constant "-") "b" "a" = "-".
Proof. reflexivity. Qed.

Example constant_combineMany_empty : combineMany (constant "-") [] "a" = "-".
Proof. reflexivity. Qed.

Example constant_combineMany_three : combineMany (constant "-") ["b"; "c"; "d"] "a" = "-".
Proof. reflexivity. Qed.

Example intercalate_combine_two : combine (intercalate "|" stringSemigroup) "b" "a" = "a|b".
Proof. reflexivity. Qed.

Example intercalate_combineMany_three :
  combineMany (intercalate "|" stringSemigroup) ["b"; "c"; "d"] "a" = "a|b|c|d".
Proof. reflexivity. Qed.

Example min_combineMany : combineMany (min numberOrder) [3%Z; 2%Z] 1%Z = 1%Z.
Proof. reflexivity. Qed.

Example max_combineMany : combineMany (max numberOrder) [3%Z; 2%Z] 1%Z = 3%Z.
Proof. reflexivity. Qed.

Example min_last_minimum :
  combineMany (min byFirst) [(1%Z, "one"); (1%Z, "item")] (2%Z, "two") = (1%Z, "item").
Proof. reflexivity. Qed.

Example max_last_maximum :
  combineMany (max byFirst) [(2%Z, "two"); (2%Z, "item")] (1%Z, "one") = (2%Z, "item").
Proof. reflexivity. Qed.

Example struct_combineMany_two :
  combineMany (struct {[ "name" := stringField; "age" := numberSumField ]})
    [ {[ "name" := VString "b"; "age" := VNumber 20 ]};
      {[ "name" := VString "c"; "age" := VNumber 30 ]} ]
    {[ "name" := VString "a"; "age" := VNumber 10 ]}
  = {[ "name" := VString "abc"; "age" := VNumber 60 ]}.
Proof. vm_compute. reflexivity. Qed.

Example tuple_combine :
  combine (tuple [stringField; numberSumField]) [VString "b"; VNumber 20]
    [VString "a"; VNumber 10]
  = [VString "ab"; VNumber 30].
Proof. reflexivity. Qed.

Example tuple_combineMany_two :
  combineMany (tuple [stringField; numberSumField])
    [[VString "b"; VNumber 20]; [VString "c"; VNumber 30]] [VString "a"; VNumber 10]
  = [VString "abc"; VNumber 60].
Proof. reflexivity. Qed.

Example first_combineMany : combineMany first [2; 3; 4; 5; 6] 1 = 1.
Proof. reflexivity. Qed.

Example last_combine : combine last 2 1 = 2.
Proof. reflexivity. Qed.

Example last_combineMany : combineMany last [2; 3; 4; 5; 6] 1 = 6.
Proof. reflexivity. Qed.

Example imap_combineMany_two :
  combineMany (imap (fun s : string => [s]) (fun l => hd "" l) stringSemigroup)
    [["b"]; ["c"]] ["a"]
  = ["abc"].
Proof. reflexivity. Qed.

Example productMany_combine :
  combine (tuple [stringField; stringField; stringField])
    [VString "d"; VString "e"; VString "f"] [VString "a"; VString "b"; VString "c"]
  = [VString "ad"; VString "be"; VString "cf"].
Proof. reflexivity. Qed.

Example reverse_subtraction_combineMany :
  combineMany (reverse subtraction) [0%Z; 0%Z] 1%Z = (-1)%Z.
Proof. reflexivity. Qed.

Example reverse_subtraction_leftFold :
  Law.leftFold (reverse subtraction) [0%Z; 0%Z] 1%Z = 1%Z.
Proof. reflexivity. Qed.

Example intercalate_keepSelf_left :
  combine (intercalate 0%Z keepSelfSubtractMany)
    (combine (intercalate 0%Z keepSelfSubtractMany) 1%Z 0%Z) 0%Z = 1%Z.
Proof. reflexivity. Qed.

Example intercalate_keepSelf_right :
  combine (intercalate 0%Z keepSelfSubtractMany) 1%Z
    (combine (intercalate 0%Z keepSelfSubtractMany) 0%Z 0%Z) = (-1)%Z.
Proof. reflexivity. Qed.

Example struct_reads_inherited_member :
  combine (struct {[ "constructor" := first ]}) ∅ ∅
  = {[ "constructor" := VInherited "constructor" ]}.
Proof. vm_compute. reflexivity. Qed.

Example imap_not_inverse_combineMany :
  combineMany (imap Z.succ (fun n : Z => n) numberSumSemigroup) [] 0%Z = 1%Z.
Proof. reflexivity. Qed.

End Scenarios.

(** * Further properties of Semigroup *)

Module SemigroupMore.

Import Order Semigroup Law SemigroupProps.

(** ** tuple and struct, position by position *)

(** X1. [tuple(...semigroups).combine(that)(self)] has one position per
    semigroup, whatever the lengths of the operands, and position [i] holds
    [semigroups[i].combine(that[i])(self[i])]. *)
Theorem tuple_combine_positionwise `{Inhabited V} (semigroups : list (Semigroup V))
    (that self : list V) :
  length (combine (tuple semigroups) that self) = length semigroups /\
  forall i : nat,
    combine (tuple semigroups) that self !! i =
    (fun Si => combine Si (that !!! i) (self !!! i)) <$> semigroups !! i.
Proof.
  split.
  - simpl. apply length_imap.
  - intros i. apply tuple_combine_lookup.
Qed.


Lemma tuple_folds `{Inhabited V} (semigroups : list (Semigroup V)) :
  folds (tuple semigroups).
Proof. apply fromCombine_folds. Qed.




Lemma tuple_leftFold_lookup `{Inhabited V} (semigroups : list (Semigroup V))
    (i : nat) (xs : list (list V)) :
  forall (x s : list V),
    leftFold (tuple semigroups) (x :: xs) s !! i =
    (fun Si => leftFold Si ((fun r => r !!! i) <$> (x :: xs)) (s !!! i)) <$> semigroups !! i.
Proof.
  induction xs as [|y ys IH]; intros x s.
  - apply tuple_combine_lookup.
  - change (leftFold (tuple semigroups) (x :: y :: ys) s)
      with (leftFold (tuple semigroups) (y :: ys) (combine (tuple semigroups) x s)).
    rewrite IH. destruct (semigroups !! i) as [Si|] eqn:Hi; [|reflexivity].
    rewrite (@tuple_combine_lookup_total V _ semigroups x s i Si Hi). reflexivity.
Qed.

(** X3. [tuple(...semigroups).combineMany] folds position by position: over
    a collection that is not empty the result has one position per
    semigroup, and position [i] is the left fold of [semigroups[i].combine]
    over the positions [i] of the collection, from [self[i]]; over the empty
    collection the result is [self] as it is. *)
Theorem tuple_combineMany_positionwise `{Inhabited V} (semigroups : list (Semigroup V)) :
  (forall s : list V, combineMany (tuple semigroups) [] s = s) /\
  (forall (x : list V) (xs : list (list V)) (s : list V) (i : nat),
     combineMany (tuple semigroups) (x :: xs) s !! i =
     (fun Si => leftFold Si ((fun r => r !!! i) <$> (x :: xs)) (s !!! i))
       <$> semigroups !! i).
Proof.
  split; [reflexivity|].
  intros x xs s i. rewrite (tuple_folds semigroups (x :: xs) s).
  apply tuple_leftFold_lookup.
Qed.

(** ** min and max over a collection *)

Lemma compare_refl {A : Type} (O : Order A) (HO : Total O) (a : A) : compare O a a = Equal.
Proof.
  pose proof (compare_swap HO a a) as Hswap.
  destruct (compare O a a); simpl in Hswap; congruence.
Qed.

Lemma min_folds {A : Type} (O : Order A) : folds (min O).
Proof. apply fromCombine_folds. Qed.

Lemma max_folds {A : Type} (O : Order A) : folds (max O).
Proof. apply fromCombine_folds. Qed.

(** X4. [min(O).combineMany(xs)(s)], for a total order, is the last minimum
    of [s, ...xs]: it is one of these values, it is not above any value
    before it, and it is strictly below every value after it. *)
Theorem min_combineMany_last_minimum {A : Type} (O : Order A) (HO : Total O)
    (xs : list A) (s : A) :
  exists before after : list A,
    s :: xs = before ++ combineMany (min O) xs s :: after /\
    (forall y, y ∈ before -> compare O y (combineMany (min O) xs s) <> Greater) /\
    (forall y, y ∈ after -> compare O y (combineMany (min O) xs s) = Less).
Proof.
  induction xs as [|y xs IH] using rev_ind.
  - exists [], []. repeat split; intros y Hy; inversion Hy.
  - destruct IH as (before & after & Hsplit & Hbefore & Hafter).
    rewrite min_folds, leftFold_snoc, <- min_folds.
    set (r := combineMany (min O) xs s) in *.
    assert (Hall : forall z, z ∈ s :: xs -> compare O z r <> Greater).
    { intros z Hz. rewrite Hsplit in Hz.
      apply elem_of_app in Hz as [Hz|Hz]; [apply Hbefore, Hz|].
      apply elem_of_cons in Hz as [->|Hz].
      - rewrite (compare_refl HO). discriminate.
      - rewrite (Hafter z Hz). discriminate. }
    simpl. destruct (compare O y r) eqn:Hyr.
    + exists before, (after ++ [y]). repeat split.
      * change (s :: xs ++ [y]) with ((s :: xs) ++ [y]).
        rewrite Hsplit, <- app_assoc. reflexivity.
      * exact Hbefore.
      * intros z Hz. apply elem_of_app in Hz as [Hz|Hz]; [apply Hafter, Hz|].
        apply list_elem_of_singleton in Hz as ->. exact Hyr.
    + exists (s :: xs), []. repeat split.
      * intros z Hz. apply (@not_Greater_trans A O HO z r y); [apply Hall, Hz|].
        rewrite (compare_swap HO), Hyr. discriminate.
      * intros z Hz. inversion Hz.
    + exists (s :: xs), []. repeat split.
      * intros z Hz. apply (@not_Greater_trans A O HO z r y); [apply Hall, Hz|].
        rewrite (compare_swap HO), Hyr. discriminate.
      * intros z Hz. inversion Hz.
Qed.

Lemma min_combineMany_last_minimum_witness :
  exists before after : list Z,
    1%Z :: [3%Z; 1%Z; 2%Z] = before ++ combineMany (min numberOrder) [3%Z; 1%Z; 2%Z] 1%Z :: after /\
    (forall y, y ∈ before ->
       compare numberOrder y (combineMany (min numberOrder) [3%Z; 1%Z; 2%Z] 1%Z) <> Greater) /\
    (forall y, y ∈ after ->
       compare numberOrder y (combineMany (min numberOrder) [3%Z; 1%Z; 2%Z] 1%Z) = Less).
Proof.
  exact (min_combineMany_last_minimum numberOrder_total [3%Z; 1%Z; 2%Z] 1%Z).
Defined.

(** X5. [max(O).combineMany(xs)(s)], for a total order, is the last maximum
    of [s, ...xs]: it is one of these values, it is not below any value
    before it, and it is strictly above every value after it. *)
Theorem max_combineMany_last_maximum {A : Type} (O : Order A) (HO : Total O)
    (xs : list A) (s : A) :
  exists before after : list A,
    s :: xs = before ++ combineMany (max O) xs s :: after /\
    (forall y, y ∈ before -> compare O y (combineMany (max O) xs s) <> Less) /\
    (forall y, y ∈ after -> compare O y (combineMany (max O) xs s) = Greater).
Proof.
  induction xs as [|y xs IH] using rev_ind.
  - exists [], []. repeat split; intros y Hy; inversion Hy.
  - destruct IH as (before & after & Hsplit & Hbefore & Hafter).
    rewrite max_folds, leftFold_snoc, <- max_folds.
    set (r := combineMany (max O) xs s) in *.
    assert (Hall : forall z, z ∈ s :: xs -> compare O z r <> Less).
    { intros z Hz. rewrite Hsplit in Hz.
      apply elem_of_app in Hz as [Hz|Hz]; [apply Hbefore, Hz|].
      apply elem_of_cons in Hz as [->|Hz].
      - rewrite (compare_refl HO). discriminate.
      - rewrite (Hafter z Hz). discriminate. }
    simpl. destruct (compare O y r) eqn:Hyr.
    + exists (s :: xs), []. repeat split.
      * intros z Hz. apply (@not_Less_trans A O HO z r y); [apply Hall, Hz|].
        rewrite (compare_swap HO), Hyr. discriminate.
      * intros z Hz. inversion Hz.
    + exists (s :: xs), []. repeat split.
      * intros z Hz. apply (@not_Less_trans A O HO z r y); [apply Hall, Hz|].
        rewrite (compare_swap HO), Hyr. discriminate.
      * intros z Hz. inversion Hz.
    + exists before, (after ++ [y]). repeat split.
      * change (s :: xs ++ [y]) with ((s :: xs) ++ [y]).
        rewrite Hsplit, <- app_assoc. reflexivity.
      * exact Hbefore.
      * intros z Hz. apply elem_of_app in Hz as [Hz|Hz]; [apply Hafter, Hz|].
        apply list_elem_of_singleton in Hz as ->. exact Hyr.
Qed.

Lemma max_combineMany_last_maximum_witness :
  exists before after : list Z,
    1%Z :: [3%Z; 2%Z; 3%Z] = before ++ combineMany (max numberOrder) [3%Z; 2%Z; 3%Z] 1%Z :: after /\
    (forall y, y ∈ before ->
       compare numberOrder y (combineMany (max numberOrder) [3%Z; 2%Z; 3%Z] 1%Z) <> Less) /\
    (forall y, y ∈ after ->
       compare numberOrder y (combineMany (max numberOrder) [3%Z; 2%Z; 3%Z] 1%Z) = Greater).
Proof.
  exact (max_combineMany_last_maximum numberOrder_total [3%Z; 2%Z; 3%Z] 1%Z).
Defined.

(** ** reverse, first and last *)

(** X6. Reversing twice gives the instance back: [reverse(reverse(S))] has
    the [combine] of [S], and, when [S] is lawful, the [combineMany] of
    [S]. *)
Theorem reverse_involutive {A : Type} (S : Semigroup A) :
  (forall that self : A, combine (reverse (reverse S)) that self = combine S that self) /\
  (Lawful S ->
   forall (xs : list A) (s : A),
     combineMany (reverse (reverse S)) xs s = combineMany S xs s).
Proof.
  split; [reflexivity|].
  intros HS xs s.
  assert (Hrev : Lawful (reverse S)).
  { split; [apply reverse_associative, HS | apply reverse_folds, HS]. }
  rewrite (reverse_folds Hrev xs s). symmetry. apply (proj2 HS).
Qed.

Lemma reverse_involutive_witness :
  combineMany (reverse (reverse Data.stringSemigroup)) ["b"; "c"] "a"
  = combineMany Data.stringSemigroup ["b"; "c"] "a".
Proof.
  exact (proj2 (reverse_involutive Data.stringSemigroup) stringSemigroup_lawful
           ["b"; "c"] "a").
Defined.

(** X7. [first] and [last] are each the reverse of the other, in [combine]
    and in [combineMany], the empty collection included. *)
Theorem reverse_first_last {A : Type} (that self : A) (xs : list A) :
  combine (reverse first) that self = combine last that self /\
  combineMany (reverse first) xs self = combineMany last xs self /\
  combine (reverse last) that self = combine first that self /\
  combineMany (reverse last) xs self = combineMany first xs self.
Proof.
  repeat split.
  - destruct xs as [|x xs _] using rev_ind; [reflexivity|].
    simpl. rewrite rev_app_distr, for_of_last, last_last. reflexivity.
  - simpl. destruct (rev xs); reflexivity.
Qed.

(** ** intercalate over a collection *)

(** X8. When [S.combineMany] is the left fold of [S.combine],
    [intercalate(separator)(S).combineMany(xs)(s)] is [S.combineMany] over
    [xs] with the separator put before each element. *)
Theorem intercalate_combineMany_separated {A : Type} (separator : A) (S : Semigroup A) :
  folds S ->
  forall (xs : list A) (s : A),
    combineMany (intercalate separator S) xs s
    = combineMany S (withSeparator separator xs) s.
Proof.
  intros HS xs. simpl. induction xs as [|x xs IH]; intros s.
  - rewrite HS. reflexivity.
  - simpl for_of. rewrite IH, !HS. reflexivity.
Qed.

Lemma intercalate_combineMany_separated_witness :
  combineMany (intercalate "|" Data.stringSemigroup) ["b"; "c"] "a"
  = combineMany Data.stringSemigroup (withSeparator "|" ["b"; "c"]) "a".
Proof.
  apply (intercalate_combineMany_separated "|" (proj2 stringSemigroup_lawful)).
Defined.

(** ** imap as a mapping of instances *)

(** X9. [imap] keeps identities and compositions: [imap(id, id)(S)] behaves
    as [S], and [imap(to2, from2)(imap(to1, from1)(S))] behaves as
    [imap(to2 ∘ to1, from1 ∘ from2)(S)], in [combine] and in
    [combineMany]. *)
Theorem imap_identity_composition {A : Type} (S : Semigroup A) :
  (forall (that self : A) (xs : list A),
     combine (imap (fun a => a) (fun a => a) S) that self = combine S that self /\
     combineMany (imap (fun a => a) (fun a => a) S) xs self = combineMany S xs self) /\
  (forall (B C : Type) (to1 : A -> B) (from1 : B -> A) (to2 : B -> C) (from2 : C -> B)
          (that self : C) (xs : list C),
     combine (imap to2 from2 (imap to1 from1 S)) that self
     = combine (imap (fun a => to2 (to1 a)) (fun c => from1 (from2 c)) S) that self /\
     combineMany (imap to2 from2 (imap to1 from1 S)) xs self
     = combineMany (imap (fun a => to2 (to1 a)) (fun c => from1 (from2 c)) S) xs self).
Proof.
  split.
  - intros that self xs. split; [reflexivity|]. simpl. rewrite List.map_id. reflexivity.
  - intros B C to1 from1 to2 from2 that self xs. split; [reflexivity|].
    simpl. rewrite List.map_map. reflexivity.
Qed.

(** ** The SemiProduct instance *)

Lemma productMany_combine_cons `{Inhabited A} (collection : list (Semigroup A))
    (self : Semigroup A) (x y : list A) :
  combine (SemiProduct.productMany collection self) x y
  = combine self (x !!! 0) (y !!! 0) :: combine (tuple collection) (drop 1 x) (drop 1 y).
Proof.
  simpl. f_equal. apply imap_ext. intros i Si _. simpl.
  rewrite !lookup_total_drop. reflexivity.
Qed.

(** X10. [productMany(collection)(self).combine(that)(self')] combines the
    heads with [self] and the tails with [tuple(...collection)];
    [product(that)(self)] is [productMany([that])(self)], so its [combine]
    always returns the pair made with [self] at position 0 and [that] at
    position 1. *)
Theorem semiProduct_combine `{Inhabited A} (collection : list (Semigroup A))
    (that self : Semigroup A) (x y : list A) :
  combine (SemiProduct.productMany collection self) x y
  = combine self (x !!! 0) (y !!! 0) :: combine (tuple collection) (drop 1 x) (drop 1 y) /\
  combine (SemiProduct.product that self) x y
  = combine (SemiProduct.productMany [that] self) x y /\
  combine (SemiProduct.product that self) x y
  = [combine self (x !!! 0) (y !!! 0); combine that (x !!! 1) (y !!! 1)].
Proof.
  split; [apply productMany_combine_cons | split; reflexivity].
Qed.

End SemigroupMore.

(** * Further properties of Predicate *)

Module PredicateMore.

Import Predicate.

Lemma productAll_loop_true `{Inhabited A} (predicates : list (Predicate A)) (as_ : list A) :
  forall i : nat,
    productAll_loop i predicates as_ = true <->
    (forall j p, predicates !! j = Some p -> p (as_ !!! (i + j)) = true).
Proof.
  induction predicates as [|q rest IH]; intros i; simpl.
  - split; [intros _ j p Hj; destruct j; discriminate | reflexivity].
  - destruct (q (as_ !!! i)) eqn:Hq.
    + rewrite IH. split.
      * intros Hrest [|j] p Hj; simpl in Hj.
        -- injection Hj as <-. rewrite Nat.add_0_r. exact Hq.
        -- rewrite <- Nat.add_succ_comm. apply Hrest, Hj.
      * intros Hall j p Hj. rewrite Nat.add_succ_comm. apply (Hall (S j)), Hj.
    + split; [discriminate|]. intros Hall.
      specialize (Hall 0 q eq_refl). rewrite Nat.add_0_r in Hall. congruence.
Qed.

Lemma productAll_loop_ext `{Inhabited A} (predicates : list (Predicate A))
    (as1 as2 : list A) :
  forall i : nat,
    (forall j, j < length predicates -> as1 !!! (i + j) = as2 !!! (i + j)) ->
    productAll_loop i predicates as1 = productAll_loop i predicates as2.
Proof.
  induction predicates as [|q rest IH]; intros i Hsame; simpl; [reflexivity|].
  assert (Hi : as1 !!! i = as2 !!! i).
  { rewrite <- (Nat.add_0_r i). apply Hsame. simpl. lia. }
  rewrite <- Hi. destruct (q (as1 !!! i)); [|reflexivity].
  apply IH. intros j Hj. rewrite Nat.add_succ_comm. apply Hsame. simpl. lia.
Qed.

Lemma productAll_loop_shift `{Inhabited A} (predicates : list (Predicate A))
    (as_ : list A) (n : nat) :
  forall i : nat,
    productAll_loop i predicates (drop n as_) = productAll_loop (n + i) predicates as_.
Proof.
  induction predicates as [|q rest IH]; intros i; simpl; [reflexivity|].
  rewrite lookup_total_drop, IH, Nat.add_succ_r. reflexivity.
Qed.

Lemma productAll_loop_app `{Inhabited A} (ps qs : list (Predicate A)) (as_ : list A) :
  forall i : nat,
    productAll_loop i (ps ++ qs) as_
    = productAll_loop i ps as_ && productAll_loop (length ps + i) qs as_.
Proof.
  induction ps as [|p ps IH]; intros i; simpl; [reflexivity|].
  destruct (p (as_ !!! i)); [|reflexivity].
  rewrite IH, Nat.add_succ_r. reflexivity.
Qed.

(** X11. [Product.productAll(collection)(as)] is [true] exactly when every
    predicate of the collection holds of the input at its own index, an
    index past the end of [as] reading [undefined]. *)
Theorem productAll_true_iff `{Inhabited A} (collection : list (Predicate A))
    (as_ : list A) :
  Product.productAll collection as_ = true <->
  (forall i p, collection !! i = Some p -> p (as_ !!! i) = true).
Proof. apply (productAll_loop_true collection as_ 0). Qed.

Lemma productAll_true_iff_witness :
  Product.productAll [Nat.even; Nat.odd] [2; 3] = true.
Proof.
  apply (productAll_true_iff [Nat.even; Nat.odd] [2; 3]).
  intros [|[|i]] p Hi; simpl in Hi; try discriminate; injection Hi as <-; reflexivity.
Defined.

(** X12. [productAll] looks at one input per predicate: inputs past the
    number of predicates are ignored, and inputs that are missing count as
    [undefined]. *)
Theorem productAll_inputs_used `{Inhabited A} (collection : list (Predicate A))
    (as_ extra : list A) (n : nat) :
  (length collection <= length as_ ->
   Product.productAll collection (as_ ++ extra) = Product.productAll collection as_) /\
  Product.productAll collection (as_ ++ replicate n inhabitant)
  = Product.productAll collection as_.
Proof.
  split.
  - intros Hlen. apply productAll_loop_ext. intros j Hj. simpl.
    apply lookup_total_app_l. lia.
  - apply productAll_loop_ext. intros j _. simpl.
    rewrite !list_lookup_total_alt.
    destruct (decide (j < length as_)) as [Hlt|Hge].
    + rewrite lookup_app_l by exact Hlt. reflexivity.
    + rewrite lookup_app_r by lia.
      rewrite (proj2 (lookup_ge_None as_ j)) by lia. simpl.
      destruct (replicate n inhabitant !! (j - length as_)) as [v|] eqn:Hv; [|reflexivity].
      apply lookup_replicate in Hv as [-> _]. reflexivity.
Qed.

Lemma productAll_inputs_used_witness :
  Product.productAll [Nat.even; Nat.odd] ([2; 3] ++ [5; 7])
  = Product.productAll [Nat.even; Nat.odd] [2; 3].
Proof.
  apply (proj1 (productAll_inputs_used [Nat.even; Nat.odd] [2; 3] [5; 7] 0)).
  simpl. lia.
Defined.

(** X13. The [SemiProduct] methods are instances of [productAll]:
    [productMany(collection)(self)] is [productAll([self, ...collection])]
    and [product(that)(self)] is [productAll([self, that])], on every
    input. *)
Theorem semiProduct_as_productAll `{Inhabited A} (collection : list (Predicate A))
    (that self : Predicate A) (as_ : list A) :
  SemiProduct.productMany collection self as_
  = Product.productAll (self :: collection) as_ /\
  SemiProduct.product that self as_ = Product.productAll [self; that] as_.
Proof.
  split.
  - unfold SemiProduct.productMany, Product.productAll. simpl.
    destruct (self (as_ !!! 0)); [|reflexivity].
    rewrite productAll_loop_shift. reflexivity.
  - unfold SemiProduct.product, Product.productAll. simpl.
    destruct (self (as_ !!! 0)), (that (as_ !!! 1)); reflexivity.
Qed.

(** X14. [productAll] of a concatenation is the conjunction of [productAll]
    of the first part and [productAll] of the second part on the inputs
    that follow; so adding [of(a)] at the end of the collection changes
    nothing. *)
Theorem productAll_app `{Inhabited A} (ps qs : list (Predicate A)) (as_ : list A) (a : A) :
  Product.productAll (ps ++ qs) as_
  = Product.productAll ps as_ && Product.productAll qs (drop (length ps) as_) /\
  Product.productAll (ps ++ [Product.of_ a]) as_ = Product.productAll ps as_.
Proof.
  unfold Product.productAll. split.
  - rewrite productAll_loop_app, productAll_loop_shift. reflexivity.
  - rewrite productAll_loop_app. simpl. apply andb_true_r.
Qed.

Lemma contramap_productAll_loop {A B : Type} `{Inhabited A, Inhabited B} (f : B -> A)
    (predicates : list (Predicate A)) (as_ : list B) :
  forall i : nat,
    i + length predicates <= length as_ ->
    productAll_loop i (contramap f <$> predicates) as_
    = productAll_loop i predicates (f <$> as_).
Proof.
  induction predicates as [|q rest IH]; intros i Hlen; simpl in *; [reflexivity|].
  unfold contramap at 1.
  assert (Hi : (f <$> as_) !!! i = f (as_ !!! i)).
  { destruct (lookup_lt_is_Some_2 as_ i) as [v Hv]; [lia|].
    rewrite (list_lookup_total_correct _ _ _ Hv).
    apply list_lookup_total_correct. rewrite list_lookup_fmap, Hv. reflexivity. }
  rewrite Hi. destruct (q (f (as_ !!! i))); [|reflexivity].
  apply IH. lia.
Qed.

(** X15. [contramap] keeps identities and compositions, and it moves through
    [productAll]: when there is an input for each predicate, mapping every
    predicate with [contramap(f)] is the same as mapping every input with
    [f]. *)
Theorem contramap_laws {A B C : Type} `{Inhabited A, Inhabited B}
    (f : B -> A) (g : C -> B) (p : Predicate A) :
  (forall a : A, contramap (fun a => a) p a = p a) /\
  (forall c : C, contramap g (contramap f p) c = contramap (fun c => f (g c)) p c) /\
  (forall (predicates : list (Predicate A)) (as_ : list B),
     length predicates <= length as_ ->
     Product.productAll (contramap f <$> predicates) as_
     = Product.productAll predicates (f <$> as_)).
Proof.
  repeat split.
  intros predicates as_ Hlen. apply contramap_productAll_loop. simpl. exact Hlen.
Qed.

Lemma contramap_laws_witness :
  Product.productAll (contramap String.length <$> [Nat.even; Nat.odd]) ["ab"; "c"]
  = Product.productAll [Nat.even; Nat.odd] (String.length <$> ["ab"; "c"]).
Proof.
  apply (proj2 (proj2 (contramap_laws String.length (fun c : nat => "") Nat.even))
           [Nat.even; Nat.odd] ["ab"; "c"]).
  simpl. lia.
Defined.

End PredicateMore.

(** * Further properties of Covariant *)

Module CovariantMore.

Import Covariant Law.



Section Lawful.

Context {F : Type -> Type} (F_ : Covariant F).
Hypothesis Hcomposition : compositionLaw (@map F F_).

Lemma map_map_fused {A B C : Type} (f : A -> B) (g : B -> C) (x : F A) :
  map F_ g (map F_ f x) = map F_ (fun a => g (f a)) x.
Proof. symmetry. apply Hcomposition. Qed.

Lemma as_after_map {A B C : Type} (b : C) (f : A -> B) (x : F A) :
  as_ F_ b (map F_ f x) = as_ F_ b x.
Proof. unfold as_. apply map_map_fused. Qed.

Lemma map_after_as {A B C : Type} (b : B) (g : B -> C) (x : F A) :
  map F_ g (as_ F_ b x) = as_ F_ (g b) x.
Proof. unfold as_. apply map_map_fused. Qed.

Lemma flap_after_map {A B C : Type} (a : A) (h : C -> A -> B) (x : F C) :
  flap F_ a (map F_ h x) = map F_ (fun y => h y a) x.
Proof. unfold flap. apply map_map_fused. Qed.



End Lawful.

(** X16. For a [map] that satisfies the composition law, [as] forgets what
    was mapped before it, and a [map] after it acts on the constant:
    [as(F)(b)(F.map(f)(x))] is [as(F)(b)(x)], and [F.map(g)(as(F)(b)(x))] is
    [as(F)(g(b))(x)]; likewise [asUnit(F)(F.map(f)(x))] is [asUnit(F)(x)],
    and [asUnit] twice is [asUnit] once. *)
Theorem as_absorbs_map {F : Type -> Type} (F_ : Covariant F) :
  compositionLaw (@map F F_) ->
  forall (A B C D : Type) (b : B) (f : A -> C) (g : B -> D) (x : F A),
    as_ F_ b (map F_ f x) = as_ F_ b x /\
    map F_ g (as_ F_ b x) = as_ F_ (g b) x /\
    asUnit F_ (map F_ f x) = asUnit F_ x /\
    asUnit F_ (asUnit F_ x) = asUnit F_ x.
Proof.
  intros Hcomp A B C D b f g x. repeat split.
  - apply (as_after_map F_ Hcomp).
  - apply (map_after_as F_ Hcomp).
  - apply (as_after_map F_ Hcomp).
  - apply (as_after_map F_ Hcomp).
Qed.

Lemma as_absorbs_map_witness :
  as_ Data.listCovariant "b" (map Data.listCovariant Nat.even [1; 2])
  = as_ Data.listCovariant "b" [1; 2] /\
  map Data.listCovariant String.length (as_ Data.listCovariant "b" [1; 2])
  = as_ Data.listCovariant (String.length "b") [1; 2] /\
  asUnit Data.listCovariant (map Data.listCovariant Nat.even [1; 2])
  = asUnit Data.listCovariant [1; 2] /\
  asUnit Data.listCovariant (asUnit Data.listCovariant [1; 2])
  = asUnit Data.listCovariant [1; 2].
Proof.
  apply (as_absorbs_map Data.listCovariant CovariantProps.listCovariant_composition
           "b" Nat.even String.length [1; 2]).
Defined.

(** X17. For a [map] that satisfies the composition law, [flap] after a
    [map] is one [map]: [flap(F)(a)(F.map(h)(x))] is
    [F.map(y => h(y)(a))(x)]; in particular [flap(F)(a)(as(F)(g)(x))] is
    [as(F)(g(a))(x)]. *)
Theorem flap_fuses {F : Type -> Type} (F_ : Covariant F) :
  compositionLaw (@map F F_) ->
  forall (A B C D : Type) (a : A) (h : C -> A -> B) (g : A -> D) (x : F C),
    flap F_ a (map F_ h x) = map F_ (fun y => h y a) x /\
    flap F_ a (as_ F_ g x) = as_ F_ (g a) x.
Proof.
  intros Hcomp A B C D a h g x. split.
  - apply (flap_after_map F_ Hcomp).
  - unfold as_. apply (flap_after_map F_ Hcomp).
Qed.

Lemma flap_fuses_witness :
  flap Data.listCovariant 3 (map Data.listCovariant Nat.add [1; 2])
  = map Data.listCovariant (fun y => y + 3) [1; 2] /\
  flap Data.listCovariant 3 (as_ Data.listCovariant Nat.even [1; 2])
  = as_ Data.listCovariant (Nat.even 3) [1; 2].
Proof.
  apply (flap_fuses Data.listCovariant CovariantProps.listCovariant_composition 3 Nat.add Nat.even [1; 2]).
Defined.



End CovariantMore.
